(** * Search state controller of the Local Business Finder (src/App.tsx)

    The component [App] keeps nine pieces of React state and two asynchronous
    event handlers, [handleSearch] and [handleLoadMore].  Both handlers talk to
    one outside capability, [fetchBusinessesByPincode], whose answer the
    controller cannot predict.

    Modelling choices.
    - A JavaScript string is a [string]; each character stands for one code
      unit, so [String.length] is the [.length] of the source and [String.eqb]
      is [===] on strings.
    - An array is a [list]; [.length] is [List.length].
    - A handler is a value of [Handler]: a sequence of state updates
      ([setX(v)] and [setX(prev => ...)]) with at most one [await] of the
      outside capability.  The handler is built from the state captured by the
      closure (the render snapshot); the updates act on the live state.
      [try]/[catch]/[finally] become the two branches after the [await], each
      ending with the [finally] update.
    - The outside capability is an [Oracle]: it maps the request to either a
      response or a thrown value.  [run] records every request together with
      the state in which it was issued.
    - [new Map(entries)] is an association list that keeps insertion order;
      setting a key that is already there overwrites its value in place.
    - [search], [loadMore] and [session] run one handler at a time, to its
      end, from the state that was rendered last: the captured snapshot and
      the live state coincide.  Overlapping handlers are outside the model.
    - [renderResults] returns a [View]: which of the five pages is shown and,
      for the results page, each of its conditional pieces.  [x && ...] on a
      string tests that it is neither null nor empty.  [uiSession] is a
      session in which load more runs only when its button is rendered and
      enabled. *)

From Stdlib Require Import List String Bool Arith Lia.
Import ListNotations.
Open Scope string_scope.
Open Scope list_scope.

Set Implicit Arguments.

(** ** Data model (src/types.ts) *)

Record Business := mkBusiness {
  name : string;
  address : string;
  phone : option string;
  category : option string
}.

Record Source := mkSource {
  uri : string;
  title : string
}.

(** ** The outside capability *)

Record Request := mkRequest {
  q_pincode : string;
  q_area : string;
  q_excludeNames : option (list string)
}.

Record Response := mkResponse {
  r_businesses : list Business;
  r_sources : list Source
}.

(** What a rejected call throws: an [Error] object with its message, or any
    other value. *)
Inductive Thrown :=
| ThrownError (message : string)
| ThrownOther.

Inductive Outcome :=
| Resolves (r : Response)
| Rejects (e : Thrown).

Definition Oracle := Request -> Outcome.

(** ** Component state (the [useState] cells of [App]) *)

Record State := mkState {
  pincode : string;
  area : string;
  businesses : list Business;
  sources : list Source;
  isLoading : bool;
  isMoreLoading : bool;
  error : option string;
  hasSearched : bool;
  hasMore : bool
}.

Definition initialState : State :=
  mkState "" "" [] [] false false None false false.

Module Cell.
(** The functional form of each setter: the new value is computed from the
    previous one.  [setX(v)] is [X (fun _ => v)]. *)
Definition Pincode (f : string -> string) (s : State) : State :=
  mkState (f (pincode s)) (area s) (businesses s) (sources s) (isLoading s)
          (isMoreLoading s) (error s) (hasSearched s) (hasMore s).
Definition Area (f : string -> string) (s : State) : State :=
  mkState (pincode s) (f (area s)) (businesses s) (sources s) (isLoading s)
          (isMoreLoading s) (error s) (hasSearched s) (hasMore s).
Definition Businesses (f : list Business -> list Business) (s : State) : State :=
  mkState (pincode s) (area s) (f (businesses s)) (sources s) (isLoading s)
          (isMoreLoading s) (error s) (hasSearched s) (hasMore s).
Definition Sources (f : list Source -> list Source) (s : State) : State :=
  mkState (pincode s) (area s) (businesses s) (f (sources s)) (isLoading s)
          (isMoreLoading s) (error s) (hasSearched s) (hasMore s).
Definition IsLoading (f : bool -> bool) (s : State) : State :=
  mkState (pincode s) (area s) (businesses s) (sources s) (f (isLoading s))
          (isMoreLoading s) (error s) (hasSearched s) (hasMore s).
Definition IsMoreLoading (f : bool -> bool) (s : State) : State :=
  mkState (pincode s) (area s) (businesses s) (sources s) (isLoading s)
          (f (isMoreLoading s)) (error s) (hasSearched s) (hasMore s).
Definition Error (f : option string -> option string) (s : State) : State :=
  mkState (pincode s) (area s) (businesses s) (sources s) (isLoading s)
          (isMoreLoading s) (f (error s)) (hasSearched s) (hasMore s).
Definition HasSearched (f : bool -> bool) (s : State) : State :=
  mkState (pincode s) (area s) (businesses s) (sources s) (isLoading s)
          (isMoreLoading s) (error s) (f (hasSearched s)) (hasMore s).
Definition HasMore (f : bool -> bool) (s : State) : State :=
  mkState (pincode s) (area s) (businesses s) (sources s) (isLoading s)
          (isMoreLoading s) (error s) (hasSearched s) (f (hasMore s)).
End Cell.

Definition setPincode (v : string) := Cell.Pincode (fun _ => v).
Definition setArea (v : string) := Cell.Area (fun _ => v).
Definition setBusinesses (v : list Business) := Cell.Businesses (fun _ => v).
Definition setSources (v : list Source) := Cell.Sources (fun _ => v).
Definition setIsLoading (v : bool) := Cell.IsLoading (fun _ => v).
Definition setIsMoreLoading (v : bool) := Cell.IsMoreLoading (fun _ => v).
Definition setError (v : option string) := Cell.Error (fun _ => v).
Definition setHasSearched (v : bool) := Cell.HasSearched (fun _ => v).
Definition setHasMore (v : bool) := Cell.HasMore (fun _ => v).

(** ** Handlers as programs *)

Inductive Handler :=
| Done
| Update (f : State -> State) (k : Handler)
| Await (q : Request) (k : Outcome -> Handler).

Notation "f ';;' k" := (Update f k) (at level 61, right associativity).

(** One entry of the request log: the request and the state it was issued in. *)
Definition Issued := (Request * State)%type.

Fixpoint run (o : Oracle) (h : Handler) (s : State) : State * list Issued :=
  match h with
  | Done => (s, [])
  | Update f k => run o k (f s)
  | Await q k =>
      let r := run o (k (o q)) s in
      (fst r, (q, s) :: snd r)
  end.

(** ** [new Map(entries)] and [Array.from(map.values())] *)

Module JsMap.
Section WithValue.
Variable V : Type.

Definition t := list (string * V).

(** [map.set(k, v)]: overwrite in place when [k] is present, append
    otherwise. *)
Fixpoint set (k : string) (v : V) (m : t) : t :=
  match m with
  | [] => [(k, v)]
  | (k', v') :: m' =>
      if k' =? k then (k', v) :: m' else (k', v') :: set k v m'
  end.

Definition add_entries (m : t) (entries : list (string * V)) : t :=
  fold_left (fun acc kv => set (fst kv) (snd kv) acc) entries m.

Definition of_entries (entries : list (string * V)) : t :=
  add_entries [] entries.

Definition keys (m : t) : list string := map fst m.
Definition values (m : t) : list V := map snd m.

Definition get (k : string) (m : t) : option V :=
  option_map snd (find (fun kv => fst kv =? k) m).
End WithValue.
End JsMap.

(** ** The two handlers *)

Definition validationMessage : string := "Please enter a valid 6-digit pincode.".
Definition unknownMessage : string := "An unknown error occurred.".

(** The [catch] clause shared by both handlers. *)
Definition caughtMessage (e : Thrown) : string :=
  match e with
  | ThrownError m => m
  | ThrownOther => unknownMessage
  end.

Definition searchRequest (snap : State) : Request :=
  mkRequest (pincode snap) (area snap) None.

Definition handleSearch (snap : State) : Handler :=
  if negb (String.length (pincode snap) =? 6)%nat then
    setError (Some validationMessage) ;; Done
  else
    setIsLoading true ;;
    setError None ;;
    setBusinesses [] ;;
    setSources [] ;;
    setHasSearched true ;;
    setHasMore false ;;
    Await (searchRequest snap) (fun out =>
      match out with
      | Resolves r =>
          let results := r_businesses r in
          let newSources := r_sources r in
          setBusinesses results ;;
          setSources newSources ;;
          (if ((0 <? List.length results) && (List.length results =? 30))%nat
           then setHasMore true
           else setHasMore false) ;;
          setIsLoading false ;; Done
      | Rejects e =>
          setError (Some (caughtMessage e)) ;;
          setIsLoading false ;; Done
      end).

Definition existingNames (snap : State) : list string :=
  map name (businesses snap).

Definition loadMoreRequest (snap : State) : Request :=
  mkRequest (pincode snap) (area snap) (Some (existingNames snap)).

(** [newResults.filter(nb => !businesses.some(eb => eb.name === nb.name))] *)
Definition uniqueNewResults (existing newResults : list Business) : list Business :=
  filter (fun newBusiness =>
            negb (existsb (fun existingBusiness =>
                             name existingBusiness =? name newBusiness) existing))
         newResults.

(** The updater given to [setSources] in [handleLoadMore]. *)
Definition mergeSources (newSources prev : list Source) : list Source :=
  let allSources := prev ++ newSources in
  JsMap.values (JsMap.of_entries (map (fun s => (uri s, s)) allSources)).

Definition when (b : bool) (f : State -> State) : State -> State :=
  if b then f else fun s => s.

Definition handleLoadMore (snap : State) : Handler :=
  setIsMoreLoading true ;;
  setError None ;;
  Await (loadMoreRequest snap) (fun out =>
    match out with
    | Resolves r =>
        let newResults := r_businesses r in
        let newSources := r_sources r in
        let unique := uniqueNewResults (businesses snap) newResults in
        when (0 <? List.length unique)%nat
             (Cell.Businesses (fun prev => prev ++ unique)) ;;
        when (0 <? List.length newSources)%nat
             (Cell.Sources (mergeSources newSources)) ;;
        when (List.length newResults <? 30)%nat (setHasMore false) ;;
        setIsMoreLoading false ;; Done
    | Rejects e =>
        setError (Some (caughtMessage e)) ;;
        setHasMore false ;;
        setIsMoreLoading false ;; Done
    end).

(** ** Running a handler from the rendered state *)

Definition search (o : Oracle) (s : State) : State := fst (run o (handleSearch s) s).
Definition searchLog (o : Oracle) (s : State) : list Issued := snd (run o (handleSearch s) s).
Definition loadMore (o : Oracle) (s : State) : State := fst (run o (handleLoadMore s) s).
Definition loadMoreLog (o : Oracle) (s : State) : list Issued := snd (run o (handleLoadMore s) s).

(** ** Sessions: what the user can do, one event after the other *)

Inductive Action :=
| TypePincode (p : string)
| TypeArea (a : string)
| ClickSearch
| ClickLoadMore.

Definition step (o : Oracle) (a : Action) (s : State) : State :=
  match a with
  | TypePincode p => setPincode p s
  | TypeArea a' => setArea a' s
  | ClickSearch => search o s
  | ClickLoadMore => loadMore o s
  end.

(** Every event comes with the behaviour of the outside world during it. *)
Definition session (evs : list (Oracle * Action)) (s : State) : State :=
  fold_left (fun st ev => step (fst ev) (snd ev) st) evs s.

(** The state in which an accepted search issues its request. *)
Definition searching (s : State) : State :=
  mkState (pincode s) (area s) [] [] true (isMoreLoading s) None true false.

(** The state in which load more issues its request. *)
Definition loadingMore (s : State) : State :=
  mkState (pincode s) (area s) (businesses s) (sources s) (isLoading s) true
          None (hasSearched s) (hasMore s).

(** ** Words of the specification *)

(** The distinct elements of a list, each at the place of its first
    occurrence. *)
Fixpoint firstOccurrences (l : list string) : list string :=
  match l with
  | [] => []
  | x :: xs => x :: filter (fun y => negb (String.eqb y x)) (firstOccurrences xs)
  end.

(** [absent l k] holds when no element of [l] equals [k]. *)
Definition absent (l : list string) (k : string) : bool :=
  if in_dec string_dec k l then false else true.

(** The last entry of [l] that carries the uri [u]. *)
Definition lastWithUri (u : string) (l : list Source) : option Source :=
  find (fun t => String.eqb (uri t) u) (rev l).

(** No two businesses with one name, no two sources with one uri. *)
Definition NoDuplicates (s : State) : Prop :=
  NoDup (map name (businesses s)) /\ NoDup (map uri (sources s)).

(** An outside capability that never repeats a name inside one response,
    and never repeats a uri inside the response to a search (a request
    without exclusion list). *)
Definition DistinctAnswers (o : Oracle) : Prop :=
  forall q r, o q = Resolves r ->
    NoDup (map name (r_businesses r)) /\
    (q_excludeNames q = None -> NoDup (map uri (r_sources r))).

(** An entry of the map built by [mergeSources] is filed under the uri of
    its value. *)
Definition keyed (kv : string * Source) : Prop := fst kv = uri (snd kv).

(** ** What is on screen ([renderResults]) *)

(** The load-more button: [disabled] and its caption. *)
Record Button := mkButton {
  disabled : bool;
  label : string
}.

(** The page shown when there are businesses: the grid, the sources, and the
    four conditional pieces below them. *)
Record ResultsView := mkResultsView {
  grid : list Business;
  grounding : list Source;
  loadMoreButton : option Button;
  moreSpinner : bool;
  endOfResults : bool;
  inlineError : option string
}.

Inductive View :=
| SpinnerView
| ErrorView (message : string)
| ResultsPage (v : ResultsView)
| NoBusinessesFound (p : string) (a : option string)
| WelcomeView.

(** Truthiness of a [string | null] and of a [string]: null and the empty
    string are falsy. *)
Definition truthy (x : option string) : bool :=
  match x with
  | Some m => negb (String.eqb m "")
  | None => false
  end.

Definition nonEmpty (x : string) : bool := negb (String.eqb x "").

(** The string handed to [ErrorMessage]; only read where [error] is truthy. *)
Definition messageOf (x : option string) : string :=
  match x with
  | Some m => m
  | None => ""
  end.

Definition renderResults (s : State) : View :=
  if isLoading s then SpinnerView
  else if truthy (error s) && (List.length (businesses s) =? 0)%nat then
    ErrorView (messageOf (error s))
  else if hasSearched s then
    if (0 <? List.length (businesses s))%nat then
      ResultsPage
        (mkResultsView
           (businesses s)
           (sources s)
           (if hasMore s
            then Some (mkButton (isMoreLoading s)
                                (if isMoreLoading s
                                 then "Loading More..."
                                 else "Load More Results"))
            else None)
           (isMoreLoading s)
           (negb (hasMore s) && hasSearched s
              && (0 <? List.length (businesses s))%nat)
           (if truthy (error s) && (0 <? List.length (businesses s))%nat
            then Some (messageOf (error s))
            else None))
    else
      NoBusinessesFound (pincode s)
                        (if nonEmpty (area s) then Some (area s) else None)
  else WelcomeView.

(** The error text that a view shows, wherever it shows it. *)
Definition shownError (v : View) : option string :=
  match v with
  | ErrorView m => Some m
  | ResultsPage r => inlineError r
  | _ => None
  end.

(** [handleLoadMore] is the [onClick] of the load-more button only: it can be
    invoked when the button is on screen and not disabled. *)
Definition loadMoreClickable (s : State) : bool :=
  match renderResults s with
  | ResultsPage v =>
      match loadMoreButton v with
      | Some b => negb (disabled b)
      | None => false
      end
  | _ => false
  end.

(** One event of a session driven through the rendered page.  The search
    form may always be submitted. *)
Definition uiStep (o : Oracle) (a : Action) (s : State) : State :=
  match a with
  | ClickLoadMore => if loadMoreClickable s then loadMore o s else s
  | _ => step o a s
  end.

Definition uiSession (evs : list (Oracle * Action)) (s : State) : State :=
  fold_left (fun st ev => uiStep (fst ev) (snd ev) st) evs s.

(** Between two events no request is pending, and the load-more button is
    offered only after a search, with a full page on screen. *)
Definition Settled (s : State) : Prop :=
  isLoading s = false /\
  isMoreLoading s = false /\
  (hasMore s = true -> hasSearched s = true /\ 30 <= List.length (businesses s)).

(** Nothing is held before the first accepted search. *)
Definition NothingBeforeSearch (s : State) : Prop :=
  hasSearched s = false -> businesses s = [] /\ sources s = [] /\ hasMore s = false.

(** ** Concrete inputs used by the examples *)

Module Sample.
Definition biz (n : string) : Business := mkBusiness n "" None None.

Definition A := biz "A".
Definition B := biz "B".
Definition C := biz "C".

Definition x_old := mkSource "x" "old".
Definition x_new := mkSource "x" "new".
Definition y_y := mkSource "y" "y".

(** A state as left by an earlier search for 110001. *)
Definition loaded (bs : list Business) (ss : list Source) (more : bool) : State :=
  mkState "110001" "" bs ss false false None true more.

Definition answers (bs : list Business) (ss : list Source) : Oracle :=
  fun _ => Resolves (mkResponse bs ss).

Definition fails (e : Thrown) : Oracle := fun _ => Rejects e.

Definition typed (p : string) : State := setPincode p initialState.

(** A page of [n] businesses with pairwise different one-letter names. *)
Definition numbered (i : nat) : Business :=
  biz (String (Ascii.ascii_of_nat (65 + i)) "").
Definition page (n : nat) : list Business := map numbered (seq 0 n).

(** A full page was found for 110001; the user then shortened the pincode
    and pressed search again, which was refused.  The results and the
    load-more button are still on screen, next to the validation message. *)
Definition afterRefusedSearch : State :=
  session [(answers (page 30) [], TypePincode "110001");
           (answers (page 30) [], ClickSearch);
           (answers (page 30) [], TypePincode "1100");
           (answers (page 30) [], ClickSearch)]
          initialState.

End Sample.

Example search_short_pincode :
  search (Sample.answers [Sample.A] []) (Sample.typed "1100") =
  mkState "1100" "" [] [] false false (Some validationMessage) false false.
Proof. reflexivity. Qed.

Example search_fresh :
  search (Sample.answers [Sample.A; Sample.B] [Sample.y_y]) (Sample.typed "110001") =
  mkState "110001" "" [Sample.A; Sample.B] [Sample.y_y] false false None true false.
Proof. reflexivity. Qed.

Example loadMore_dedup :
  businesses (loadMore (Sample.answers [Sample.B; Sample.C] [])
                       (Sample.loaded [Sample.A; Sample.B] [] true)) =
  [Sample.A; Sample.B; Sample.C].
Proof. reflexivity. Qed.

Example loadMore_empty_answer :
  loadMore (Sample.answers [] []) (Sample.loaded [Sample.A] [Sample.y_y] true) =
  Sample.loaded [Sample.A] [Sample.y_y] false.
Proof. reflexivity. Qed.

Example firstOccurrences_sample :
  firstOccurrences ["x"; "y"; "x"; "z"; "y"] = ["x"; "y"; "z"].
Proof. reflexivity. Qed.

Example lastWithUri_sample :
  lastWithUri "x" [Sample.x_old; Sample.y_y; Sample.x_new] = Some Sample.x_new.
Proof. reflexivity. Qed.

Example loadMore_merge :
  sources (loadMore (Sample.answers [] [Sample.x_new; Sample.y_y])
                    (Sample.loaded [Sample.A] [Sample.x_old] true)) =
  [Sample.x_new; Sample.y_y].
Proof. reflexivity. Qed.

(** ** Facts about lists used below *)

Lemma filter_twice (A : Type) (f g : A -> bool) (l : list A) :
  filter f (filter g l) = filter (fun x => g x && f x) l.
Proof.
  induction l as [|a l IH]; simpl; trivial.
  destruct (g a); simpl; [destruct (f a)|]; rewrite IH; reflexivity.
Qed.

Lemma absent_true (l : list string) (k : string) :
  absent l k = true <-> ~ In k l.
Proof.
  unfold absent. destruct (in_dec string_dec k l); split; intros; congruence.
Qed.

Lemma absent_false (l : list string) (k : string) :
  absent l k = false <-> In k l.
Proof.
  unfold absent. destruct (in_dec string_dec k l); split; intros; congruence.
Qed.

Lemma absent_cons (l : list string) (x k : string) :
  absent (x :: l) k = negb (String.eqb x k) && absent l k.
Proof.
  destruct (String.eqb_spec x k) as [->|Hne]; simpl.
  - apply absent_false. now left.
  - destruct (absent l k) eqn:E.
    + apply absent_true. apply absent_true in E. intros [H|H]; congruence.
    + apply absent_false. apply absent_false in E. now right.
Qed.

Lemma absent_snoc (l : list string) (k y : string) :
  absent (l ++ [k]) y = negb (String.eqb y k) && absent l y.
Proof.
  destruct (String.eqb_spec y k) as [->|Hne]; simpl.
  - apply absent_false, in_or_app. right. now left.
  - destruct (absent l y) eqn:E.
    + apply absent_true. apply absent_true in E. intros H.
      apply in_app_or in H as [H|[H|[]]]; [now apply E | congruence].
    + apply absent_false. apply absent_false in E. apply in_or_app. now left.
Qed.

(** The code tests membership with [some] and [===]. *)
Lemma some_name_absent (existing : list Business) (b : Business) :
  negb (existsb (fun eb => String.eqb (name eb) (name b)) existing) =
  absent (map name existing) (name b).
Proof.
  destruct (absent (map name existing) (name b)) eqn:E.
  - apply absent_true in E. apply negb_true_iff.
    destruct (existsb _ existing) eqn:X; trivial.
    apply existsb_exists in X as (eb & Hin & Heq).
    apply String.eqb_eq in Heq. exfalso. apply E. rewrite <- Heq.
    now apply in_map.
  - apply absent_false in E. apply negb_false_iff.
    apply in_map_iff in E as (eb & Heq & Hin).
    apply existsb_exists. exists eb. split; trivial. now apply String.eqb_eq.
Qed.

Lemma firstOccurrences_incl (l : list string) (k : string) :
  In k (firstOccurrences l) <-> In k l.
Proof.
  induction l as [|x xs IH]; simpl; [tauto|].
  rewrite filter_In, IH, negb_true_iff, String.eqb_neq.
  destruct (string_dec x k) as [->|Hne]; [tauto|].
  split; intros [H|H]; try tauto. right. split; [tauto|congruence].
Qed.

Lemma firstOccurrences_NoDup (l : list string) : NoDup (firstOccurrences l).
Proof.
  induction l as [|x xs IH]; simpl; constructor.
  - rewrite filter_In, String.eqb_refl. simpl. intros [_ H]. discriminate.
  - now apply NoDup_filter.
Qed.

(** ** Facts about the insertion-ordered map *)

Module JsMapFacts.
Import JsMap.

Section WithValue.
Variable V : Type.
Implicit Types (m : t V) (k : string) (v : V).

Lemma keys_set k v m :
  keys (set k v m) = if absent (keys m) k then keys m ++ [k] else keys m.
Proof.
  induction m as [|[k' v'] m IH]; simpl; trivial.
  rewrite absent_cons.
  destruct (String.eqb_spec k' k) as [E|Hne]; simpl; trivial.
  fold (keys m). fold (keys (set k v m)). rewrite IH.
  destruct (absent (keys m) k); reflexivity.
Qed.

Lemma keys_add_entries (es : list (string * V)) m :
  keys (add_entries m es) =
  keys m ++ filter (absent (keys m)) (firstOccurrences (map fst es)).
Proof.
  revert m. induction es as [|[k v] es IH]; intros m; simpl.
  - now rewrite app_nil_r.
  - unfold add_entries in *. simpl. rewrite IH, keys_set.
    rewrite filter_twice.
    destruct (absent (keys m) k) eqn:E.
    + rewrite <- app_assoc. simpl. f_equal. f_equal.
      apply filter_ext. intros y. apply absent_snoc.
    + f_equal. apply filter_ext. intros y.
      destruct (String.eqb_spec y k) as [->|Hne]; simpl; trivial.
  Qed.

Lemma keys_of_entries (es : list (string * V)) :
  keys (of_entries es) = firstOccurrences (map fst es).
Proof.
  unfold of_entries. rewrite keys_add_entries. simpl.
  induction (firstOccurrences (map fst es)) as [|x xs IH]; simpl; trivial.
  now rewrite IH.
Qed.

Lemma get_set k k' v m :
  get k (set k' v m) = if String.eqb k' k then Some v else get k m.
Proof.
  induction m as [|[k0 v0] m IH]; unfold get in *; simpl.
  - destruct (String.eqb k' k); reflexivity.
  - destruct (String.eqb_spec k0 k') as [->|Hne]; simpl.
    + destruct (String.eqb k' k); reflexivity.
    + destruct (String.eqb_spec k0 k) as [->|Hne']; simpl.
      * destruct (String.eqb_spec k' k); [congruence | reflexivity].
      * apply IH.
Qed.

Lemma get_app k m m' :
  get k (m ++ m') = match get k m with Some v => Some v | None => get k m' end.
Proof.
  induction m as [|[k0 v0] m IH]; unfold get in *; simpl; trivial.
  destruct (String.eqb k0 k); simpl; trivial.
Qed.

(** Later entries win: the value of a key is the one of its last entry. *)
Lemma get_add_entries k (es : list (string * V)) m :
  get k (add_entries m es) =
  match get k (rev es) with Some v => Some v | None => get k m end.
Proof.
  revert m. induction es as [|[k' v'] es IH]; intros m; simpl; trivial.
  unfold add_entries in *. simpl. rewrite IH, get_app, get_set.
  destruct (get k (rev es)); trivial.
  unfold get. simpl. destruct (String.eqb k' k); reflexivity.
Qed.

Lemma get_In k v m :
  NoDup (keys m) -> In (k, v) m -> get k m = Some v.
Proof.
  induction m as [|[k0 v0] m IH]; simpl; intros ND Hin; [contradiction|].
  inversion ND as [|? ? Hout ND']; subst.
  unfold get. simpl.
  destruct Hin as [E|Hin].
  - inversion E; subst. now rewrite String.eqb_refl.
  - destruct (String.eqb_spec k0 k) as [->|Hne].
    + exfalso. apply Hout. change k with (fst (k, v)). now apply in_map.
    + now apply IH.
Qed.

Lemma keys_of_entries_NoDup (es : list (string * V)) : NoDup (keys (of_entries es)).
Proof. rewrite keys_of_entries. apply firstOccurrences_NoDup. Qed.
End WithValue.
End JsMapFacts.

(** ** Facts about [mergeSources] *)

Lemma set_keyed (s : Source) (m : JsMap.t Source) :
  Forall keyed m -> Forall keyed (JsMap.set (uri s) s m).
Proof.
  induction 1 as [|[k v] m Hk Hm IH]; simpl.
  - repeat constructor.
  - destruct (String.eqb_spec k (uri s)) as [E|Hne]; constructor; trivial.
Qed.

Lemma of_sources_keyed (l : list Source) (m : JsMap.t Source) :
  Forall keyed m ->
  Forall keyed (JsMap.add_entries m (map (fun s => (uri s, s)) l)).
Proof.
  revert m. induction l as [|s l IH]; intros m Hm; simpl; trivial.
  apply IH. now apply set_keyed.
Qed.

Lemma keyed_values (m : JsMap.t Source) :
  Forall keyed m -> map uri (JsMap.values m) = JsMap.keys m.
Proof.
  induction 1 as [|[k v] m Hk Hm IH]; simpl; trivial.
  unfold keyed in Hk. simpl in Hk. rewrite Hk. f_equal. exact IH.
Qed.

Lemma find_map (A B : Type) (f : A -> B) (p : B -> bool) (l : list A) :
  find p (map f l) = option_map f (find (fun a => p (f a)) l).
Proof.
  induction l as [|a l IH]; simpl; trivial. destruct (p (f a)); simpl; trivial.
Qed.

Lemma mergeSources_uris (newSources prev : list Source) :
  map uri (mergeSources newSources prev) =
  firstOccurrences (map uri (prev ++ newSources)).
Proof.
  unfold mergeSources. rewrite keyed_values.
  - rewrite JsMapFacts.keys_of_entries, map_map. reflexivity.
  - apply of_sources_keyed. constructor.
Qed.

Lemma mergeSources_NoDup (newSources prev : list Source) :
  NoDup (map uri (mergeSources newSources prev)).
Proof. rewrite mergeSources_uris. apply firstOccurrences_NoDup. Qed.

Lemma mergeSources_last (newSources prev : list Source) (x : Source) :
  In x (mergeSources newSources prev) ->
  lastWithUri (uri x) (prev ++ newSources) = Some x.
Proof.
  unfold mergeSources, lastWithUri.
  set (l := prev ++ newSources). set (es := map (fun s => (uri s, s)) l).
  intros Hin. apply in_map_iff in Hin as ([k v] & E & Hin). simpl in E. subst v.
  assert (Hk : keyed (k, x)).
  { assert (F : Forall keyed (JsMap.of_entries es))
      by (apply of_sources_keyed; constructor).
    rewrite Forall_forall in F. now apply F. }
  unfold keyed in Hk. simpl in Hk. subst k.
  apply JsMapFacts.get_In in Hin; [|apply JsMapFacts.keys_of_entries_NoDup].
  unfold JsMap.of_entries in Hin. rewrite JsMapFacts.get_add_entries in Hin.
  destruct (JsMap.get (uri x) (rev es)) as [v|] eqn:G; [|discriminate].
  inversion Hin; subst v. clear Hin.
  unfold JsMap.get, es in G. rewrite <- map_rev, find_map in G. simpl in G.
  destruct (find _ (rev l)) as [t|]; simpl in G; congruence.
Qed.

(** ** What each handler leaves behind *)

Lemma search_invalid (o : Oracle) (s : State) :
  String.length (pincode s) <> 6 ->
  run o (handleSearch s) s = (setError (Some validationMessage) s, []).
Proof.
  intros H. unfold handleSearch.
  apply Nat.eqb_neq in H. rewrite H. reflexivity.
Qed.

Lemma search_resolved (o : Oracle) (s : State) (r : Response) :
  String.length (pincode s) = 6 ->
  o (searchRequest s) = Resolves r ->
  run o (handleSearch s) s =
  (mkState (pincode s) (area s) (r_businesses r) (r_sources r) false
           (isMoreLoading s) None true (List.length (r_businesses r) =? 30)%nat,
   [(searchRequest s, searching s)]).
Proof.
  intros H Ho. unfold handleSearch.
  apply Nat.eqb_eq in H. rewrite H. simpl. rewrite Ho. simpl.
  destruct (r_businesses r) as [|b bs]; simpl; trivial.
  destruct (List.length bs =? 29)%nat; reflexivity.
Qed.

Lemma search_rejected (o : Oracle) (s : State) (e : Thrown) :
  String.length (pincode s) = 6 ->
  o (searchRequest s) = Rejects e ->
  run o (handleSearch s) s =
  (mkState (pincode s) (area s) [] [] false (isMoreLoading s)
           (Some (caughtMessage e)) true false,
   [(searchRequest s, searching s)]).
Proof.
  intros H Ho. unfold handleSearch.
  apply Nat.eqb_eq in H. rewrite H. simpl. rewrite Ho. reflexivity.
Qed.

Lemma loadMore_resolved (o : Oracle) (s : State) (r : Response) :
  o (loadMoreRequest s) = Resolves r ->
  run o (handleLoadMore s) s =
  (mkState (pincode s) (area s)
           (businesses s ++ uniqueNewResults (businesses s) (r_businesses r))
           (match r_sources r with
            | [] => sources s
            | _ :: _ => mergeSources (r_sources r) (sources s)
            end)
           (isLoading s) false None (hasSearched s)
           (if (List.length (r_businesses r) <? 30)%nat then false else hasMore s),
   [(loadMoreRequest s, loadingMore s)]).
Proof.
  intros Ho. unfold handleLoadMore. simpl. rewrite Ho.
  destruct (uniqueNewResults (businesses s) (r_businesses r)) as [|u us] eqn:U;
    destruct (r_sources r) as [|n ns] eqn:N;
    destruct (List.length (r_businesses r) <? 30)%nat eqn:L;
    simpl; rewrite ?U, ?N, ?L; simpl; rewrite ?app_nil_r; reflexivity.
Qed.

Lemma loadMore_rejected (o : Oracle) (s : State) (e : Thrown) :
  o (loadMoreRequest s) = Rejects e ->
  run o (handleLoadMore s) s =
  (mkState (pincode s) (area s) (businesses s) (sources s) (isLoading s) false
           (Some (caughtMessage e)) (hasSearched s) false,
   [(loadMoreRequest s, loadingMore s)]).
Proof.
  intros Ho. unfold handleLoadMore. simpl. rewrite Ho. reflexivity.
Qed.

Lemma uniqueNewResults_absent (existing newResults : list Business) :
  uniqueNewResults existing newResults =
  filter (fun b => absent (map name existing) (name b)) newResults.
Proof. apply filter_ext. intros b. apply some_name_absent. Qed.

(** ** The claims *)

(** C1 (as amended).  When load more receives at least one source, the sources
    afterwards list every uri of the old list followed by the returned list
    exactly once, in the order of first occurrence, and the entry kept for a
    uri is the LAST one carrying it in that concatenation: the returned title
    replaces the stored one. *)
Theorem loadMore_sources_last_title_wins (o : Oracle) (s : State) (r : Response) :
  o (loadMoreRequest s) = Resolves r ->
  0 < List.length (r_sources r) ->
  map uri (sources (loadMore o s)) =
    firstOccurrences (map uri (sources s ++ r_sources r)) /\
  forall x, In x (sources (loadMore o s)) ->
            lastWithUri (uri x) (sources s ++ r_sources r) = Some x.
Proof.
  intros Ho Hlen. unfold loadMore. rewrite (loadMore_resolved _ _ Ho). simpl.
  destruct (r_sources r) as [|n ns] eqn:N; [simpl in Hlen; lia|].
  split.
  - apply mergeSources_uris.
  - intros x. apply mergeSources_last.
Qed.

Lemma loadMore_sources_last_title_wins_witness :
  map uri (sources (loadMore (Sample.answers [] [Sample.x_new; Sample.y_y])
                             (Sample.loaded [Sample.A] [Sample.x_old] true))) =
    firstOccurrences (map uri ([Sample.x_old] ++ [Sample.x_new; Sample.y_y])) /\
  forall x,
    In x (sources (loadMore (Sample.answers [] [Sample.x_new; Sample.y_y])
                            (Sample.loaded [Sample.A] [Sample.x_old] true))) ->
    lastWithUri (uri x) ([Sample.x_old] ++ [Sample.x_new; Sample.y_y]) = Some x.
Proof.
  apply (@loadMore_sources_last_title_wins
           (Sample.answers [] [Sample.x_new; Sample.y_y])
           (Sample.loaded [Sample.A] [Sample.x_old] true)
           (mkResponse [] [Sample.x_new; Sample.y_y])).
  - reflexivity.
  - simpl. lia.
Defined.

(** C1 as written fails: merging the stored [{uri:x, title:old}] with the
    returned [{uri:x, title:new}; {uri:y, title:y}] gives the title "new" for
    x, not "old". *)
Lemma loadMore_sources_first_title_lost :
  sources (loadMore (Sample.answers [] [Sample.x_new; Sample.y_y])
                    (Sample.loaded [Sample.A] [Sample.x_old] true)) =
    [mkSource "x" "new"; mkSource "y" "y"] /\
  sources (loadMore (Sample.answers [] [Sample.x_new; Sample.y_y])
                    (Sample.loaded [Sample.A] [Sample.x_old] true)) <>
    [mkSource "x" "old"; mkSource "y" "y"].
Proof. split; [reflexivity | discriminate]. Qed.

(** C2.  A search with a pincode whose length is not 6 issues no request and
    changes nothing but the error, which becomes the validation message. *)
Theorem search_malformed_pincode (o : Oracle) (s : State) :
  String.length (pincode s) <> 6 ->
  searchLog o s = [] /\
  search o s =
    mkState (pincode s) (area s) (businesses s) (sources s) (isLoading s)
            (isMoreLoading s) (Some "Please enter a valid 6-digit pincode.")
            (hasSearched s) (hasMore s).
Proof.
  intros H. unfold searchLog, search. rewrite (search_invalid o _ H).
  split; reflexivity.
Qed.

Lemma search_malformed_pincode_witness :
  searchLog (Sample.answers [Sample.A] []) (Sample.typed "1100") = [] /\
  search (Sample.answers [Sample.A] []) (Sample.typed "1100") =
    mkState "1100" "" [] [] false false
            (Some "Please enter a valid 6-digit pincode.") false false.
Proof.
  apply (@search_malformed_pincode (Sample.answers [Sample.A] [])
                                   (Sample.typed "1100")).
  simpl. lia.
Defined.

(** C3.  A load more that gets an answer appends to the current businesses
    exactly the returned businesses whose name is the name of no current
    business, in their returned order. *)
Theorem loadMore_appends_unseen (o : Oracle) (s : State) (r : Response) :
  o (loadMoreRequest s) = Resolves r ->
  businesses (loadMore o s) =
  businesses s ++
  filter (fun b => absent (map name (businesses s)) (name b)) (r_businesses r).
Proof.
  intros Ho. unfold loadMore. rewrite (loadMore_resolved _ _ Ho). simpl.
  now rewrite uniqueNewResults_absent.
Qed.

Lemma loadMore_appends_unseen_witness :
  businesses (loadMore (Sample.answers [Sample.B; Sample.C] [])
                       (Sample.loaded [Sample.A; Sample.B] [] true)) =
  [Sample.A; Sample.B] ++
  filter (fun b => absent (map name [Sample.A; Sample.B]) (name b))
         [Sample.B; Sample.C].
Proof.
  apply (@loadMore_appends_unseen (Sample.answers [Sample.B; Sample.C] [])
                                  (Sample.loaded [Sample.A; Sample.B] [] true)
                                  (mkResponse [Sample.B; Sample.C] [])).
  reflexivity.
Defined.

(** C4.  After a search that was accepted and answered, hasMore tells
    whether exactly 30 businesses were returned. *)
Theorem search_hasMore_full_page (o : Oracle) (s : State) (r : Response) :
  String.length (pincode s) = 6 ->
  o (searchRequest s) = Resolves r ->
  hasMore (search o s) = (List.length (r_businesses r) =? 30)%nat.
Proof.
  intros H Ho. unfold search. now rewrite (search_resolved _ _ H Ho).
Qed.

Lemma search_hasMore_full_page_witness :
  hasMore (search (Sample.answers (Sample.page 30) []) (Sample.typed "110001")) =
  (List.length (r_businesses (mkResponse (Sample.page 30) [])) =? 30)%nat.
Proof.
  apply (@search_hasMore_full_page (Sample.answers (Sample.page 30) [])
                                   (Sample.typed "110001")
                                   (mkResponse (Sample.page 30) []));
    reflexivity.
Defined.

Example search_returns_30 :
  hasMore (search (Sample.answers (Sample.page 30) []) (Sample.typed "110001")) = true.
Proof. reflexivity. Qed.

Example search_returns_12 :
  hasMore (search (Sample.answers (Sample.page 12) []) (Sample.typed "110001")) = false.
Proof. reflexivity. Qed.

Example search_returns_0 :
  hasMore (search (Sample.answers [] []) (Sample.typed "110001")) = false.
Proof. reflexivity. Qed.

(** ** The no-duplicates invariant *)

Lemma distinct_names_filter (keep : Business -> bool) (bs : list Business) :
  NoDup (map name bs) -> NoDup (map name (filter keep bs)).
Proof.
  intros H. induction bs as [|b bs IH]; simpl; [constructor|].
  inversion H as [|? ? Hout H']; subst.
  destruct (keep b); simpl; [constructor|]; auto.
  intros Hin. apply Hout. apply in_map_iff in Hin as (c & Ec & Hc).
  apply filter_In in Hc as [Hc _]. rewrite <- Ec. now apply in_map.
Qed.

Lemma NoDup_names_app (existing newResults : list Business) :
  NoDup (map name existing) ->
  NoDup (map name newResults) ->
  NoDup (map name (existing ++ uniqueNewResults existing newResults)).
Proof.
  intros He Hn. rewrite uniqueNewResults_absent, map_app.
  apply NoDup_app; trivial.
  - now apply distinct_names_filter.
  - intros k Hk Hin. apply in_map_iff in Hin as (c & Ec & Hc).
    apply filter_In in Hc as [_ Hc]. apply absent_true in Hc.
    apply Hc. now rewrite Ec.
Qed.

Lemma NoDuplicates_search (o : Oracle) (s : State) :
  DistinctAnswers o -> NoDuplicates s -> NoDuplicates (search o s).
Proof.
  intros Hd [Hb Hs]. unfold search.
  destruct (Nat.eq_dec (String.length (pincode s)) 6) as [H6|H6].
  - destruct (o (searchRequest s)) as [r|e] eqn:Ho.
    + rewrite (search_resolved _ _ H6 Ho).
      destruct (Hd _ _ Ho) as [Hn Hu]. split; [exact Hn | now apply Hu].
    + rewrite (search_rejected _ _ H6 Ho). split; constructor.
  - rewrite (search_invalid o _ H6). now split.
Qed.

Lemma NoDuplicates_loadMore (o : Oracle) (s : State) :
  DistinctAnswers o -> NoDuplicates s -> NoDuplicates (loadMore o s).
Proof.
  intros Hd [Hb Hs]. unfold loadMore.
  destruct (o (loadMoreRequest s)) as [r|e] eqn:Ho.
  - rewrite (loadMore_resolved _ _ Ho). split; simpl.
    + apply NoDup_names_app; trivial. apply (Hd _ _ Ho).
    + destruct (r_sources r) as [|n ns]; trivial. apply mergeSources_NoDup.
  - rewrite (loadMore_rejected _ _ Ho). now split.
Qed.

Lemma NoDuplicates_step (o : Oracle) (a : Action) (s : State) :
  DistinctAnswers o -> NoDuplicates s -> NoDuplicates (step o a s).
Proof.
  intros Hd Hs. destruct a; simpl; trivial.
  - now apply NoDuplicates_search.
  - now apply NoDuplicates_loadMore.
Qed.

(** C5 (as amended).  As long as no single answer of the outside capability
    repeats a name among its businesses, and no answer to a search repeats a
    uri among its sources, every state of a session that started without
    duplicates is without duplicates: after every search and after every
    load more no two businesses have one name and no two sources have one
    uri. *)
Theorem session_NoDuplicates (evs : list (Oracle * Action)) (s : State) :
  Forall (fun ev => DistinctAnswers (fst ev)) evs ->
  NoDuplicates s ->
  NoDuplicates (session evs s).
Proof.
  intros Hevs. revert s. unfold session.
  induction Hevs as [|[o a] evs Hd _ IH]; intros s Hs; simpl; trivial.
  apply IH. now apply NoDuplicates_step.
Qed.

Lemma session_NoDuplicates_witness :
  NoDuplicates
    (session [(Sample.answers [Sample.A; Sample.B] [Sample.x_old], ClickSearch);
              (Sample.answers [Sample.B; Sample.C] [Sample.x_new; Sample.y_y],
               ClickLoadMore)]
             (Sample.typed "110001")).
Proof.
  apply (@session_NoDuplicates
           [(Sample.answers [Sample.A; Sample.B] [Sample.x_old], ClickSearch);
            (Sample.answers [Sample.B; Sample.C] [Sample.x_new; Sample.y_y],
             ClickLoadMore)]
           (Sample.typed "110001")).
  - apply Forall_cons; [|apply Forall_cons; [|apply Forall_nil]];
      intros q r E; inversion E; subst; simpl;
      split; repeat constructor; simpl; intuition discriminate.
  - split; simpl; constructor.
Defined.

(** C5 as written fails: a fresh search stores the returned lists as they
    are, so an answer that names one business twice leaves two businesses
    with one name, and likewise for a uri returned twice. *)
Lemma search_keeps_repeated_answer :
  businesses (search (Sample.answers [Sample.A; Sample.A] [Sample.y_y; Sample.y_y])
                     (Sample.typed "110001")) = [Sample.A; Sample.A] /\
  ~ NoDup (map name
             (businesses (search (Sample.answers [Sample.A; Sample.A]
                                                 [Sample.y_y; Sample.y_y])
                                 (Sample.typed "110001")))) /\
  ~ NoDup (map uri
             (sources (search (Sample.answers [Sample.A; Sample.A]
                                              [Sample.y_y; Sample.y_y])
                              (Sample.typed "110001")))).
Proof.
  split; [reflexivity|].
  split; simpl; intros H; inversion H as [|? ? Hout _]; apply Hout; now left.
Qed.

Example loadMore_keeps_repeated_answer :
  businesses (loadMore (Sample.answers [Sample.C; Sample.C] [])
                       (Sample.loaded [Sample.A] [] true)) =
  [Sample.A; Sample.C; Sample.C].
Proof. reflexivity. Qed.

(** ** hasMore *)

(** C6 (as amended).  After an accepted and answered search hasMore tells
    whether exactly 30 businesses were returned.  A load more that gets an
    answer clears hasMore when the answer holds fewer than 30 businesses,
    counted before the known ones are filtered out, and leaves hasMore as it
    was otherwise, however many of them are new.  A failed search or load
    more leaves hasMore false. *)
Theorem hasMore_after_fetch (o : Oracle) (s : State) :
  (String.length (pincode s) = 6 ->
   forall r, o (searchRequest s) = Resolves r ->
     hasMore (search o s) = (List.length (r_businesses r) =? 30)%nat) /\
  (String.length (pincode s) = 6 ->
   forall e, o (searchRequest s) = Rejects e -> hasMore (search o s) = false) /\
  (forall r, o (loadMoreRequest s) = Resolves r ->
     hasMore (loadMore o s) =
     if (List.length (r_businesses r) <? 30)%nat then false else hasMore s) /\
  (forall e, o (loadMoreRequest s) = Rejects e -> hasMore (loadMore o s) = false).
Proof.
  unfold search, loadMore. repeat split.
  - intros H r Ho. now rewrite (search_resolved _ _ H Ho).
  - intros H e Ho. now rewrite (search_rejected _ _ H Ho).
  - intros r Ho. now rewrite (loadMore_resolved _ _ Ho).
  - intros e Ho. now rewrite (loadMore_rejected _ _ Ho).
Qed.

Lemma hasMore_after_fetch_witness :
  hasMore (loadMore (Sample.answers (Sample.page 12) [])
                    (Sample.loaded (Sample.page 30) [] true)) =
  if (List.length (r_businesses (mkResponse (Sample.page 12) [])) <? 30)%nat
  then false else hasMore (Sample.loaded (Sample.page 30) [] true).
Proof.
  destruct (@hasMore_after_fetch (Sample.answers (Sample.page 12) [])
                                 (Sample.loaded (Sample.page 30) [] true))
    as (_ & _ & H & _).
  apply H. reflexivity.
Defined.

(** C6 as written fails: a load more whose answer is the 30 businesses
    already shown brings no new business and still leaves hasMore true. *)
Lemma loadMore_known_page_keeps_hasMore :
  uniqueNewResults (businesses (Sample.loaded (Sample.page 30) [] true))
                   (Sample.page 30) = [] /\
  hasMore (loadMore (Sample.answers (Sample.page 30) [])
                    (Sample.loaded (Sample.page 30) [] true)) = true.
Proof. split; reflexivity. Qed.

(** ** Failure and frame *)

(** C7.  When the request of load more is rejected, the error becomes the
    message of the thrown Error, or "An unknown error occurred." when the
    thrown value is no Error; hasMore becomes false; businesses and sources
    stay as they were. *)
Theorem loadMore_failure (o : Oracle) (s : State) (e : Thrown) :
  o (loadMoreRequest s) = Rejects e ->
  error (loadMore o s) =
    Some (match e with
          | ThrownError m => m
          | ThrownOther => "An unknown error occurred."
          end) /\
  hasMore (loadMore o s) = false /\
  businesses (loadMore o s) = businesses s /\
  sources (loadMore o s) = sources s.
Proof.
  intros Ho. unfold loadMore. rewrite (loadMore_rejected _ _ Ho). simpl.
  destruct e; repeat split.
Qed.

Lemma loadMore_failure_witness :
  error (loadMore (Sample.fails ThrownOther)
                  (Sample.loaded [Sample.A; Sample.B] [Sample.x_old] true)) =
    Some "An unknown error occurred." /\
  hasMore (loadMore (Sample.fails ThrownOther)
                    (Sample.loaded [Sample.A; Sample.B] [Sample.x_old] true)) = false /\
  businesses (loadMore (Sample.fails ThrownOther)
                       (Sample.loaded [Sample.A; Sample.B] [Sample.x_old] true)) =
    [Sample.A; Sample.B] /\
  sources (loadMore (Sample.fails ThrownOther)
                    (Sample.loaded [Sample.A; Sample.B] [Sample.x_old] true)) =
    [Sample.x_old].
Proof.
  apply (@loadMore_failure (Sample.fails ThrownOther)
                           (Sample.loaded [Sample.A; Sample.B] [Sample.x_old] true)
                           ThrownOther).
  reflexivity.
Defined.

Lemma loadMoreLog_one (o : Oracle) (s : State) :
  loadMoreLog o s = [(loadMoreRequest s, loadingMore s)].
Proof.
  unfold loadMoreLog. destruct (o (loadMoreRequest s)) as [r|e] eqn:Ho.
  - now rewrite (loadMore_resolved _ _ Ho).
  - now rewrite (loadMore_rejected _ _ Ho).
Qed.

(** C8 (as amended).  Load more issues exactly one request, for the pincode
    and area of the state with the names of the current businesses as the
    exclusion list.  When the request goes out the load-more flag is set,
    businesses and sources are what they were, and the error has been
    cleared. *)
Theorem loadMore_entry (o : Oracle) (s : State) :
  exists s0,
    loadMoreLog o s =
      [(mkRequest (pincode s) (area s) (Some (map name (businesses s))), s0)] /\
    isMoreLoading s0 = true /\
    businesses s0 = businesses s /\
    sources s0 = sources s /\
    error s0 = None.
Proof.
  exists (loadingMore s). rewrite loadMoreLog_one. repeat split.
Qed.

(** C8 as written fails: the validation message left by a refused search
    is gone by the time load more issues its request, and it stays gone when
    the request is answered. *)
Lemma loadMore_entry_clears_error :
  error Sample.afterRefusedSearch = Some "Please enter a valid 6-digit pincode." /\
  hasMore Sample.afterRefusedSearch = true /\
  map (fun i => error (snd i))
      (loadMoreLog (Sample.answers [Sample.B] []) Sample.afterRefusedSearch) =
    [None] /\
  error (loadMore (Sample.answers [Sample.B] []) Sample.afterRefusedSearch) = None.
Proof. repeat split. Qed.




Example search_fails_without_error_object :
  search (Sample.fails ThrownOther) (Sample.loaded [Sample.A] [Sample.x_old] true) =
  mkState "110001" "" [] [] false false (Some "An unknown error occurred.") true false.
Proof. reflexivity. Qed.

Example search_fails_with_message :
  search (Sample.fails (ThrownError "quota exceeded")) (Sample.typed "110001") =
  mkState "110001" "" [] [] false false (Some "quota exceeded") true false.
Proof. reflexivity. Qed.

(** C10.  Load more leaves hasMore as it was or makes it false.  In a
    session, an event that finds hasMore false and leaves it true is a
    search with a pincode of length 6 whose request was answered with
    exactly 30 businesses. *)
Theorem hasMore_raised_only_by_full_search (o : Oracle) (a : Action) (s : State) :
  (hasMore (loadMore o s) = hasMore s \/ hasMore (loadMore o s) = false) /\
  (hasMore s = false ->
   hasMore (step o a s) = true ->
   a = ClickSearch /\
   String.length (pincode s) = 6 /\
   exists r, o (searchRequest s) = Resolves r /\
             List.length (r_businesses r) = 30).
Proof.
  split.
  - unfold loadMore. destruct (o (loadMoreRequest s)) as [r|e] eqn:Ho.
    + rewrite (loadMore_resolved _ _ Ho). simpl.
      destruct (List.length (r_businesses r) <? 30)%nat; auto.
    + rewrite (loadMore_rejected _ _ Ho). auto.
  - intros Hs Hs'. destruct a; simpl in Hs'; try congruence.
    + unfold search in Hs'.
      destruct (Nat.eq_dec (String.length (pincode s)) 6) as [H6|H6].
      * destruct (o (searchRequest s)) as [r|e] eqn:Ho.
        -- rewrite (search_resolved _ _ H6 Ho) in Hs'. simpl in Hs'.
           apply Nat.eqb_eq in Hs'. repeat split; trivial. now exists r.
        -- rewrite (search_rejected _ _ H6 Ho) in Hs'. discriminate.
      * rewrite (search_invalid o _ H6) in Hs'. simpl in Hs'. congruence.
    + unfold loadMore in Hs'. destruct (o (loadMoreRequest s)) as [r|e] eqn:Ho.
      * rewrite (loadMore_resolved _ _ Ho) in Hs'. simpl in Hs'.
        destruct (List.length (r_businesses r) <? 30)%nat; congruence.
      * rewrite (loadMore_rejected _ _ Ho) in Hs'. discriminate.
Qed.

Lemma hasMore_raised_only_by_full_search_witness :
  ClickSearch = ClickSearch /\
  String.length (pincode (Sample.typed "110001")) = 6 /\
  exists r,
    Sample.answers (Sample.page 30) [] (searchRequest (Sample.typed "110001")) =
      Resolves r /\
    List.length (r_businesses r) = 30.
Proof.
  destruct (@hasMore_raised_only_by_full_search
              (Sample.answers (Sample.page 30) []) ClickSearch
              (Sample.typed "110001")) as [_ H].
  apply H; reflexivity.
Defined.

(** ** Further properties of the two handlers *)

Lemma loadMore_businesses_prefix (o : Oracle) (s : State) :
  exists added, businesses (loadMore o s) = businesses s ++ added.
Proof.
  unfold loadMore. destruct (o (loadMoreRequest s)) as [r|e] eqn:Ho.
  - rewrite (loadMore_resolved _ _ Ho). simpl. eauto.
  - rewrite (loadMore_rejected _ _ Ho). simpl. exists []. now rewrite app_nil_r.
Qed.

(** X1.  As long as no search is submitted, the businesses on screen only
    grow at the end: whatever is typed and however often load more runs,
    with whatever answers or failures, the earlier list stays as the front
    part of the later one. *)
Theorem businesses_append_only (evs : list (Oracle * Action)) (s : State) :
  Forall (fun ev => snd ev <> ClickSearch) evs ->
  exists added, businesses (session evs s) = businesses s ++ added.
Proof.
  intros Hevs. revert s. unfold session.
  induction Hevs as [|[o a] evs Ha _ IH]; intros s; simpl.
  - exists []. now rewrite app_nil_r.
  - simpl in Ha. destruct (IH (step o a s)) as [more Hmore]. rewrite Hmore.
    destruct a; simpl; try congruence; eauto.
    destruct (loadMore_businesses_prefix o s) as [added Hadded].
    rewrite Hadded, <- app_assoc. eauto.
Qed.

Lemma businesses_append_only_witness :
  exists added,
    businesses
      (session [(Sample.answers [Sample.B; Sample.C] [], ClickLoadMore);
                (Sample.fails ThrownOther, TypePincode "1100");
                (Sample.fails ThrownOther, ClickLoadMore)]
               (Sample.loaded [Sample.A; Sample.B] [] true)) =
    businesses (Sample.loaded [Sample.A; Sample.B] [] true) ++ added.
Proof.
  apply (@businesses_append_only
           [(Sample.answers [Sample.B; Sample.C] [], ClickLoadMore);
            (Sample.fails ThrownOther, TypePincode "1100");
            (Sample.fails ThrownOther, ClickLoadMore)]
           (Sample.loaded [Sample.A; Sample.B] [] true)).
  repeat (apply Forall_cons; [simpl; discriminate|]). apply Forall_nil.
Defined.

(** X2.  A load more whose answer holds no business and no source changes
    nothing on screen: businesses and sources are kept, the error is cleared
    and hasMore becomes false. *)
Theorem loadMore_empty_answer_keeps_results (o : Oracle) (s : State) (r : Response) :
  o (loadMoreRequest s) = Resolves r ->
  r_businesses r = [] ->
  r_sources r = [] ->
  loadMore o s =
  mkState (pincode s) (area s) (businesses s) (sources s) (isLoading s) false
          None (hasSearched s) false.
Proof.
  intros Ho Hb Hs. unfold loadMore. rewrite (loadMore_resolved _ _ Ho).
  rewrite Hb, Hs. simpl. now rewrite app_nil_r.
Qed.

Lemma loadMore_empty_answer_keeps_results_witness :
  loadMore (Sample.answers [] []) (Sample.loaded [Sample.A] [Sample.y_y] true) =
  mkState "110001" "" [Sample.A] [Sample.y_y] false false None true false.
Proof.
  apply (@loadMore_empty_answer_keeps_results
           (Sample.answers [] []) (Sample.loaded [Sample.A] [Sample.y_y] true)
           (mkResponse [] [])); reflexivity.
Defined.

(** X3.  The request of load more carries the names of all businesses on
    screen as its exclusion list, and when the answer respects that list
    (no returned name is on it) every returned business is appended, in the
    returned order. *)
Theorem loadMore_respected_exclusion (o : Oracle) (s : State) (r : Response) :
  o (loadMoreRequest s) = Resolves r ->
  (forall b excluded,
     q_excludeNames (loadMoreRequest s) = Some excluded ->
     In b (r_businesses r) -> ~ In (name b) excluded) ->
  q_excludeNames (loadMoreRequest s) = Some (map name (businesses s)) /\
  businesses (loadMore o s) = businesses s ++ r_businesses r.
Proof.
  intros Ho Hex. split; [reflexivity|].
  unfold loadMore. rewrite (loadMore_resolved _ _ Ho). simpl. f_equal.
  rewrite uniqueNewResults_absent.
  assert (H : forall b, In b (r_businesses r) ->
                        absent (map name (businesses s)) (name b) = true).
  { intros b Hb. apply absent_true. now apply (Hex b _ eq_refl). }
  clear Hex Ho. induction (r_businesses r) as [|b bs IH]; simpl; trivial.
  rewrite (H b (or_introl eq_refl)). f_equal. apply IH.
  intros c Hc. apply H. now right.
Qed.

Lemma loadMore_respected_exclusion_witness :
  q_excludeNames (loadMoreRequest (Sample.loaded [Sample.A; Sample.B] [] true)) =
    Some (map name (businesses (Sample.loaded [Sample.A; Sample.B] [] true))) /\
  businesses (loadMore (Sample.answers [Sample.C] [])
                       (Sample.loaded [Sample.A; Sample.B] [] true)) =
    businesses (Sample.loaded [Sample.A; Sample.B] [] true) ++ [Sample.C].
Proof.
  apply (@loadMore_respected_exclusion
           (Sample.answers [Sample.C] [])
           (Sample.loaded [Sample.A; Sample.B] [] true)
           (mkResponse [Sample.C] [])).
  - reflexivity.
  - intros b excluded E Hb. inversion E; subst. simpl in *.
    intuition (subst; simpl in *; discriminate).
Defined.

(** X4.  Each handler lowers its own pending flag on every way out, whether
    the request was answered or rejected, and never touches the flag of the
    other handler; a refused search leaves both flags alone. *)
Theorem pending_flags (o : Oracle) (s : State) :
  isMoreLoading (loadMore o s) = false /\
  isLoading (loadMore o s) = isLoading s /\
  isMoreLoading (search o s) = isMoreLoading s /\
  isLoading (search o s) =
    (if (String.length (pincode s) =? 6)%nat then false else isLoading s).
Proof.
  unfold loadMore, search. repeat split.
  - destruct (o (loadMoreRequest s)) as [r|e] eqn:Ho;
      [rewrite (loadMore_resolved _ _ Ho) | rewrite (loadMore_rejected _ _ Ho)];
      reflexivity.
  - destruct (o (loadMoreRequest s)) as [r|e] eqn:Ho;
      [rewrite (loadMore_resolved _ _ Ho) | rewrite (loadMore_rejected _ _ Ho)];
      reflexivity.
  - destruct (Nat.eq_dec (String.length (pincode s)) 6) as [H6|H6].
    + destruct (o (searchRequest s)) as [r|e] eqn:Ho;
        [rewrite (search_resolved _ _ H6 Ho) | rewrite (search_rejected _ _ H6 Ho)];
        reflexivity.
    + now rewrite (search_invalid o _ H6).
  - destruct (Nat.eq_dec (String.length (pincode s)) 6) as [H6|H6].
    + rewrite H6. simpl.
      destruct (o (searchRequest s)) as [r|e] eqn:Ho;
        [rewrite (search_resolved _ _ H6 Ho) | rewrite (search_rejected _ _ H6 Ho)];
        reflexivity.
    + rewrite (search_invalid o _ H6). apply Nat.eqb_neq in H6. now rewrite H6.
Qed.

(** X5.  An accepted search forgets what was there: two states with the same
    pincode, area and load-more flag end in the same state, whatever
    businesses, sources, error, hasSearched and hasMore they held before. *)
Theorem search_forgets_previous_results (o : Oracle) (s1 s2 : State) :
  String.length (pincode s1) = 6 ->
  pincode s1 = pincode s2 ->
  area s1 = area s2 ->
  isMoreLoading s1 = isMoreLoading s2 ->
  search o s1 = search o s2.
Proof.
  intros H6 Hp Ha Hm.
  assert (H6' : String.length (pincode s2) = 6) by now rewrite <- Hp.
  assert (Hq : searchRequest s1 = searchRequest s2)
    by (unfold searchRequest; now rewrite Hp, Ha).
  unfold search. destruct (o (searchRequest s1)) as [r|e] eqn:Ho.
  - rewrite (search_resolved _ _ H6 Ho).
    rewrite Hq in Ho. rewrite (search_resolved _ _ H6' Ho).
    simpl. now rewrite Hp, Ha, Hm.
  - rewrite (search_rejected _ _ H6 Ho).
    rewrite Hq in Ho. rewrite (search_rejected _ _ H6' Ho).
    simpl. now rewrite Hp, Ha, Hm.
Qed.

Lemma search_forgets_previous_results_witness :
  search (Sample.answers [Sample.C] [Sample.y_y])
         (Sample.loaded [Sample.A; Sample.B] [Sample.x_old] true) =
  search (Sample.answers [Sample.C] [Sample.y_y]) (Sample.typed "110001").
Proof.
  apply (@search_forgets_previous_results
           (Sample.answers [Sample.C] [Sample.y_y])
           (Sample.loaded [Sample.A; Sample.B] [Sample.x_old] true)
           (Sample.typed "110001")); reflexivity.
Defined.

(** ** Further properties of the source merge *)

Lemma filter_all (A : Type) (f : A -> bool) (l : list A) :
  (forall x, In x l -> f x = true) -> filter f l = l.
Proof.
  induction l as [|a l IH]; simpl; intros H; trivial.
  rewrite (H a (or_introl eq_refl)). f_equal. apply IH. intros x Hx. apply H. now right.
Qed.

Lemma filter_none (A : Type) (f : A -> bool) (l : list A) :
  (forall x, In x l -> f x = false) -> filter f l = [].
Proof.
  induction l as [|a l IH]; simpl; intros H; trivial.
  rewrite (H a (or_introl eq_refl)). apply IH. intros x Hx. apply H. now right.
Qed.

Lemma firstOccurrences_app (a b : list string) :
  NoDup a ->
  firstOccurrences (a ++ b) = a ++ filter (absent a) (firstOccurrences b).
Proof.
  induction 1 as [|x a Hx Ha IH]; simpl.
  - symmetry. apply filter_all. intros y _. now apply absent_true.
  - rewrite IH, filter_app, filter_twice. f_equal. f_equal.
    + apply filter_all. intros y Hy. apply negb_true_iff, String.eqb_neq. congruence.
    + apply filter_ext. intros y. rewrite absent_cons, String.eqb_sym. apply andb_comm.
Qed.

Lemma mergeSources_keeps_places (newSources prev : list Source) :
  NoDup (map uri prev) ->
  map uri (mergeSources newSources prev) =
  map uri prev ++
  filter (absent (map uri prev)) (firstOccurrences (map uri newSources)).
Proof.
  intros H. rewrite mergeSources_uris, map_app. now apply firstOccurrences_app.
Qed.

Lemma lastWithUri_app (u : string) (a b : list Source) :
  lastWithUri u (a ++ b) =
  match lastWithUri u b with
  | Some z => Some z
  | None => lastWithUri u a
  end.
Proof.
  unfold lastWithUri. rewrite rev_app_distr.
  induction (rev b) as [|t l IH]; simpl; trivial.
  destruct (String.eqb (uri t) u); trivial.
Qed.

Lemma find_by_uri (l : list Source) (x : Source) :
  NoDup (map uri l) -> In x l ->
  find (fun t => String.eqb (uri t) (uri x)) l = Some x.
Proof.
  induction l as [|t l IH]; simpl; intros ND Hin; [contradiction|].
  inversion ND as [|? ? Hout ND']; subst. destruct Hin as [->|Hin].
  - now rewrite String.eqb_refl.
  - destruct (String.eqb_spec (uri t) (uri x)) as [E|_]; [|now apply IH].
    exfalso. apply Hout. rewrite E. now apply in_map.
Qed.

Lemma lastWithUri_only (l : list Source) (x : Source) :
  NoDup (map uri l) -> In x l -> lastWithUri (uri x) l = Some x.
Proof.
  intros ND Hin. unfold lastWithUri. apply find_by_uri.
  - rewrite map_rev. now apply NoDup_rev.
  - now apply in_rev in Hin.
Qed.

Lemma same_uris_same_entries (g : string -> option Source) (l1 l2 : list Source) :
  map uri l1 = map uri l2 ->
  (forall x, In x l1 -> g (uri x) = Some x) ->
  (forall y, In y l2 -> g (uri y) = Some y) ->
  l1 = l2.
Proof.
  revert l2. induction l1 as [|x l1 IH]; intros [|y l2] E H1 H2;
    simpl in E; try discriminate; trivial.
  inversion E as [[Exy Erest]].
  assert (x = y).
  { pose proof (H1 x (or_introl eq_refl)) as Hx.
    pose proof (H2 y (or_introl eq_refl)) as Hy. congruence. }
  subst y. f_equal. apply IH; trivial.
  - intros z Hz. apply H1. now right.
  - intros z Hz. apply H2. now right.
Qed.

Lemma mergeSources_again (newSources prev : list Source) :
  mergeSources newSources (mergeSources newSources prev) =
  mergeSources newSources prev.
Proof.
  set (M := mergeSources newSources prev).
  apply same_uris_same_entries with (g := fun u => lastWithUri u (M ++ newSources)).
  - rewrite mergeSources_keeps_places by apply mergeSources_NoDup.
    rewrite filter_none; [apply app_nil_r|].
    intros u Hu. apply absent_false. rewrite firstOccurrences_incl in Hu.
    unfold M. rewrite mergeSources_uris, firstOccurrences_incl, map_app.
    apply in_or_app. now right.
  - intros x. apply mergeSources_last.
  - intros x Hx. rewrite lastWithUri_app.
    pose proof (mergeSources_last _ _ _ Hx) as Hlast.
    rewrite lastWithUri_app in Hlast.
    destruct (lastWithUri (uri x) newSources) as [z|]; trivial.
    apply lastWithUri_only; trivial. apply mergeSources_NoDup.
Qed.

(** X6.  Load more never moves or drops a citation: when the sources on
    screen have pairwise different uris, their uris stay where they are,
    whatever the answer, and every uri that is added behind them is a new
    one. *)
Theorem loadMore_sources_keep_places (o : Oracle) (s : State) :
  NoDup (map uri (sources s)) ->
  exists added,
    map uri (sources (loadMore o s)) = map uri (sources s) ++ added /\
    forall u, In u added -> ~ In u (map uri (sources s)).
Proof.
  intros ND. unfold loadMore.
  destruct (o (loadMoreRequest s)) as [r|e] eqn:Ho.
  - rewrite (loadMore_resolved _ _ Ho). simpl.
    destruct (r_sources r) as [|n ns].
    + exists []. rewrite app_nil_r. split; [reflexivity | intros u []].
    + eexists. split; [now apply mergeSources_keeps_places|].
      intros u Hu. apply filter_In in Hu as [_ Hu]. now apply absent_true.
  - rewrite (loadMore_rejected _ _ Ho). simpl.
    exists []. rewrite app_nil_r. split; [reflexivity | intros u []].
Qed.

Lemma loadMore_sources_keep_places_witness :
  exists added,
    map uri (sources (loadMore (Sample.answers [] [Sample.y_y; Sample.x_new])
                               (Sample.loaded [Sample.A] [Sample.x_old] true))) =
      map uri (sources (Sample.loaded [Sample.A] [Sample.x_old] true)) ++ added /\
    forall u, In u added ->
              ~ In u (map uri (sources (Sample.loaded [Sample.A] [Sample.x_old] true))).
Proof.
  apply (@loadMore_sources_keep_places
           (Sample.answers [] [Sample.y_y; Sample.x_new])
           (Sample.loaded [Sample.A] [Sample.x_old] true)).
  simpl. repeat constructor. simpl. tauto.
Defined.

(** X7.  Every source of an answer whose sources have pairwise different
    uris is on screen after load more, with the title it was returned
    with. *)
Theorem loadMore_returned_sources_present (o : Oracle) (s : State) (r : Response)
        (x : Source) :
  o (loadMoreRequest s) = Resolves r ->
  NoDup (map uri (r_sources r)) ->
  In x (r_sources r) ->
  In x (sources (loadMore o s)).
Proof.
  intros Ho ND Hx. unfold loadMore. rewrite (loadMore_resolved _ _ Ho). simpl.
  destruct (r_sources r) as [|n ns] eqn:N; [contradiction|]. rewrite <- N in *.
  assert (Hu : In (uri x) (map uri (mergeSources (r_sources r) (sources s)))).
  { rewrite mergeSources_uris, firstOccurrences_incl, map_app.
    apply in_or_app. right. now apply in_map. }
  apply in_map_iff in Hu as (y & Ey & Hy).
  pose proof (mergeSources_last _ _ _ Hy) as Hlast.
  rewrite Ey, lastWithUri_app, (lastWithUri_only _ _ ND Hx) in Hlast.
  inversion Hlast; subst. exact Hy.
Qed.

Lemma loadMore_returned_sources_present_witness :
  In Sample.x_new
     (sources (loadMore (Sample.answers [] [Sample.x_new; Sample.y_y])
                        (Sample.loaded [Sample.A] [Sample.x_old] true))).
Proof.
  apply (@loadMore_returned_sources_present
           (Sample.answers [] [Sample.x_new; Sample.y_y])
           (Sample.loaded [Sample.A] [Sample.x_old] true)
           (mkResponse [] [Sample.x_new; Sample.y_y])).
  - reflexivity.
  - simpl. repeat constructor; simpl; intuition discriminate.
  - simpl. now left.
Defined.

(** X8.  Receiving the same sources a second time changes nothing: after a
    load more that was answered, a further load more whose answer holds the
    same sources leaves the sources as they are. *)
Theorem loadMore_same_sources_twice (o o' : Oracle) (s : State) (r r' : Response) :
  o (loadMoreRequest s) = Resolves r ->
  o' (loadMoreRequest (loadMore o s)) = Resolves r' ->
  r_sources r' = r_sources r ->
  sources (loadMore o' (loadMore o s)) = sources (loadMore o s).
Proof.
  intros Ho Ho' E. unfold loadMore at 1. rewrite (loadMore_resolved _ _ Ho').
  simpl. rewrite E. clear Ho' E.
  unfold loadMore. rewrite (loadMore_resolved _ _ Ho). simpl.
  destruct (r_sources r) as [|n ns]; trivial. apply mergeSources_again.
Qed.

Lemma loadMore_same_sources_twice_witness :
  sources (loadMore (Sample.answers [Sample.C] [Sample.x_new; Sample.y_y])
                    (loadMore (Sample.answers [Sample.B] [Sample.x_new; Sample.y_y])
                              (Sample.loaded [Sample.A] [Sample.x_old] true))) =
  sources (loadMore (Sample.answers [Sample.B] [Sample.x_new; Sample.y_y])
                    (Sample.loaded [Sample.A] [Sample.x_old] true)).
Proof.
  apply (@loadMore_same_sources_twice
           (Sample.answers [Sample.B] [Sample.x_new; Sample.y_y])
           (Sample.answers [Sample.C] [Sample.x_new; Sample.y_y])
           (Sample.loaded [Sample.A] [Sample.x_old] true)
           (mkResponse [Sample.B] [Sample.x_new; Sample.y_y])
           (mkResponse [Sample.C] [Sample.x_new; Sample.y_y]));
    reflexivity.
Defined.

(** ** Invariants of a session *)

Lemma Settled_search (o : Oracle) (s : State) : Settled s -> Settled (search o s).
Proof.
  intros (Hl & Hm & Hh). unfold search, Settled.
  destruct (Nat.eq_dec (String.length (pincode s)) 6) as [H6|H6].
  - destruct (o (searchRequest s)) as [r|e] eqn:Ho.
    + rewrite (search_resolved _ _ H6 Ho). simpl.
      split; [reflexivity|]. split; [exact Hm|].
      intros Hfull. apply Nat.eqb_eq in Hfull. split; [reflexivity | lia].
    + rewrite (search_rejected _ _ H6 Ho). simpl.
      split; [reflexivity|]. split; [exact Hm | discriminate].
  - rewrite (search_invalid o _ H6). simpl. auto.
Qed.

Lemma Settled_loadMore (o : Oracle) (s : State) : Settled s -> Settled (loadMore o s).
Proof.
  intros (Hl & Hm & Hh). unfold loadMore, Settled.
  destruct (o (loadMoreRequest s)) as [r|e] eqn:Ho.
  - rewrite (loadMore_resolved _ _ Ho). simpl.
    split; [exact Hl|]. split; [reflexivity|].
    destruct (List.length (r_businesses r) <? 30)%nat; [discriminate|].
    intros Hmore. destruct (Hh Hmore) as [Hs Hb]. split; [exact Hs|].
    rewrite length_app. lia.
  - rewrite (loadMore_rejected _ _ Ho). simpl.
    split; [exact Hl|]. split; [reflexivity | discriminate].
Qed.

Lemma Settled_step (o : Oracle) (a : Action) (s : State) :
  Settled s -> Settled (step o a s).
Proof.
  intros H. destruct a; simpl.
  - exact H.
  - exact H.
  - now apply Settled_search.
  - now apply Settled_loadMore.
Qed.

Lemma loadMoreClickable_page (s : State) :
  loadMoreClickable s = true ->
  isLoading s = false /\ hasSearched s = true /\ hasMore s = true /\
  isMoreLoading s = false /\ businesses s <> [].
Proof.
  unfold loadMoreClickable, renderResults.
  destruct (isLoading s); [discriminate|].
  destruct (truthy (error s) && (List.length (businesses s) =? 0)%nat);
    [discriminate|].
  destruct (hasSearched s); [|discriminate].
  destruct (businesses s) as [|b bs]; simpl; [discriminate|].
  destruct (hasMore s); simpl; [|discriminate].
  destruct (isMoreLoading s); simpl; [discriminate|].
  intros _. repeat split. discriminate.
Qed.

Lemma uiStep_invariants (o : Oracle) (a : Action) (s : State) :
  Settled s /\ NothingBeforeSearch s ->
  Settled (uiStep o a s) /\ NothingBeforeSearch (uiStep o a s).
Proof.
  intros [HS HN]. destruct a; simpl.
  - split; [exact HS | exact HN].
  - split; [exact HS | exact HN].
  - split; [now apply Settled_search|].
    unfold NothingBeforeSearch, search.
    destruct (Nat.eq_dec (String.length (pincode s)) 6) as [H6|H6].
    + destruct (o (searchRequest s)) as [r|e] eqn:Ho;
        [rewrite (search_resolved _ _ H6 Ho) | rewrite (search_rejected _ _ H6 Ho)];
        simpl; discriminate.
    + rewrite (search_invalid o _ H6). exact HN.
  - destruct (loadMoreClickable s) eqn:Hc; [|now split].
    split; [now apply Settled_loadMore|].
    apply loadMoreClickable_page in Hc as (_ & Hs & _).
    unfold NothingBeforeSearch, loadMore.
    destruct (o (loadMoreRequest s)) as [r|e] eqn:Ho;
      [rewrite (loadMore_resolved _ _ Ho) | rewrite (loadMore_rejected _ _ Ho)];
      simpl; congruence.
Qed.

Lemma uiSession_invariants (evs : list (Oracle * Action)) (s : State) :
  Settled s /\ NothingBeforeSearch s ->
  Settled (uiSession evs s) /\ NothingBeforeSearch (uiSession evs s).
Proof.
  revert s. unfold uiSession.
  induction evs as [|[o a] evs IH]; intros s H; simpl; trivial.
  apply IH. now apply uiStep_invariants.
Qed.

Lemma initialState_invariants : Settled initialState /\ NothingBeforeSearch initialState.
Proof. repeat split; simpl; discriminate. Qed.

(** X9.  After every event of a session (typing, search, load more, in any
    order and with any answers) no pending flag is left raised, and hasMore
    is true only if a search was accepted and at least 30 businesses are
    held: the load-more button is never offered on a shorter list. *)
Theorem session_Settled (evs : list (Oracle * Action)) (s : State) :
  Settled s -> Settled (session evs s).
Proof.
  revert s. unfold session.
  induction evs as [|[o a] evs IH]; intros s H; simpl; trivial.
  apply IH. now apply Settled_step.
Qed.

Lemma session_Settled_witness :
  Settled (session [(Sample.answers (Sample.page 30) [], TypePincode "110001");
                    (Sample.answers (Sample.page 30) [], ClickSearch);
                    (Sample.answers (Sample.page 30) [], ClickLoadMore)]
                   initialState).
Proof.
  apply (@session_Settled
           [(Sample.answers (Sample.page 30) [], TypePincode "110001");
            (Sample.answers (Sample.page 30) [], ClickSearch);
            (Sample.answers (Sample.page 30) [], ClickLoadMore)]
           initialState).
  repeat split; simpl; discriminate.
Defined.

(** ** What the page shows *)

(** X10.  In a session driven through the page, starting from the initial
    state, a recorded error that is a non-empty string is always on screen:
    as the error page, in place of the results, when no businesses are held,
    and otherwise below the results, on the results page with its grid,
    sources, enabled load-more button or end-of-results note.  When the
    error is null or the empty string no error text is shown. *)
Theorem recorded_error_is_shown (evs : list (Oracle * Action)) :
  match error (uiSession evs initialState) with
  | Some m =>
      if String.eqb m ""
      then shownError (renderResults (uiSession evs initialState)) = None
      else
        renderResults (uiSession evs initialState) =
        match businesses (uiSession evs initialState) with
        | [] => ErrorView m
        | _ :: _ =>
            ResultsPage
              (mkResultsView
                 (businesses (uiSession evs initialState))
                 (sources (uiSession evs initialState))
                 (if hasMore (uiSession evs initialState)
                  then Some (mkButton false "Load More Results")
                  else None)
                 false
                 (negb (hasMore (uiSession evs initialState)))
                 (Some m))
        end
  | None => shownError (renderResults (uiSession evs initialState)) = None
  end.
Proof.
  destruct (uiSession_invariants evs initialState_invariants)
    as [(Hl & Hm & _) HN].
  set (s := uiSession evs initialState) in *.
  unfold NothingBeforeSearch in HN. unfold renderResults. rewrite Hl, Hm.
  destruct (error s) as [m|] eqn:He; simpl.
  - destruct (String.eqb m ""); simpl.
    + destruct (hasSearched s); trivial.
      destruct (businesses s); reflexivity.
    + destruct (businesses s) as [|b bs] eqn:Hb; simpl; trivial.
      destruct (hasSearched s) eqn:Hs.
      * destruct (hasMore s); reflexivity.
      * destruct (HN eq_refl) as [H _]. discriminate.
  - destruct (hasSearched s); trivial.
    destruct (businesses s); reflexivity.
Qed.

(** X11.  In such a session the welcome text is on screen exactly when no
    search has been accepted yet and no non-empty error is recorded. *)
Theorem welcome_until_first_search (evs : list (Oracle * Action)) :
  renderResults (uiSession evs initialState) = WelcomeView <->
  hasSearched (uiSession evs initialState) = false /\
  truthy (error (uiSession evs initialState)) = false.
Proof.
  destruct (uiSession_invariants evs initialState_invariants)
    as [(Hl & _ & _) HN].
  set (s := uiSession evs initialState) in *.
  unfold NothingBeforeSearch in HN. unfold renderResults. rewrite Hl.
  destruct (hasSearched s).
  - split; [|intros [H _]; discriminate].
    destruct (truthy (error s) && (List.length (businesses s) =? 0)%nat);
      [discriminate|].
    destruct (0 <? List.length (businesses s))%nat; discriminate.
  - destruct (HN eq_refl) as (Hb & _). rewrite Hb. simpl.
    rewrite andb_true_r. destruct (truthy (error s)).
    + split; [discriminate | intros [_ H]; discriminate].
    + split; auto.
Qed.

(** X12.  On the results page exactly one of the load-more button and the
    end-of-results note is shown, under a grid that is not empty. *)
Theorem button_or_end_of_results (s : State) (v : ResultsView) :
  renderResults s = ResultsPage v ->
  grid v <> [] /\
  endOfResults v = match loadMoreButton v with
                   | Some _ => false
                   | None => true
                   end.
Proof.
  unfold renderResults.
  destruct (isLoading s); [discriminate|].
  destruct (truthy (error s) && (List.length (businesses s) =? 0)%nat);
    [discriminate|].
  destruct (hasSearched s); [|discriminate].
  destruct (businesses s) as [|b bs] eqn:Hb; simpl; [discriminate|].
  intros E. inversion E; subst; simpl. split; [discriminate|].
  destruct (hasMore s); reflexivity.
Qed.

Lemma button_or_end_of_results_witness :
  grid (mkResultsView [Sample.A] [Sample.y_y] None false true None) <> [] /\
  endOfResults (mkResultsView [Sample.A] [Sample.y_y] None false true None) =
    match loadMoreButton (mkResultsView [Sample.A] [Sample.y_y] None false true None) with
    | Some _ => false
    | None => true
    end.
Proof.
  apply (@button_or_end_of_results (Sample.loaded [Sample.A] [Sample.y_y] false)).
  reflexivity.
Defined.

(** X13.  After an accepted search whose request was rejected, the page
    shows the message of the thrown Error, or "An unknown error occurred."
    for any other thrown value; but when the Error carries the empty message
    no error is shown at all and the page reads that no businesses were
    found for the pincode (and the area, when one was typed). *)
Theorem view_after_failed_search (o : Oracle) (s : State) (e : Thrown) :
  String.length (pincode s) = 6 ->
  o (searchRequest s) = Rejects e ->
  renderResults (search o s) =
  match e with
  | ThrownError m =>
      if String.eqb m ""
      then NoBusinessesFound (pincode s)
                             (if String.eqb (area s) "" then None else Some (area s))
      else ErrorView m
  | ThrownOther => ErrorView "An unknown error occurred."
  end.
Proof.
  intros H6 Ho. unfold search. rewrite (search_rejected _ _ H6 Ho).
  unfold renderResults, nonEmpty. simpl. destruct e as [m|]; simpl; trivial.
  destruct (String.eqb m ""); simpl; trivial.
  destruct (String.eqb (area s) ""); reflexivity.
Qed.

Lemma view_after_failed_search_witness :
  renderResults (search (Sample.fails (ThrownError "")) (Sample.typed "110001")) =
  NoBusinessesFound "110001" None.
Proof.
  apply (@view_after_failed_search (Sample.fails (ThrownError ""))
                                   (Sample.typed "110001") (ThrownError ""));
    reflexivity.
Defined.

(** X14.  After an accepted search that was answered, with no load more
    pending: an empty answer gives the no-businesses page, even when sources
    were returned; any other answer gives the results page with the
    returned businesses and sources, no error, and the load-more button
    (enabled) exactly when 30 businesses were returned, the end-of-results
    note otherwise. *)
Theorem view_after_answered_search (o : Oracle) (s : State) (r : Response) :
  String.length (pincode s) = 6 ->
  isMoreLoading s = false ->
  o (searchRequest s) = Resolves r ->
  renderResults (search o s) =
  match r_businesses r with
  | [] => NoBusinessesFound (pincode s)
                            (if String.eqb (area s) "" then None else Some (area s))
  | _ :: _ =>
      ResultsPage
        (mkResultsView (r_businesses r) (r_sources r)
           (if (List.length (r_businesses r) =? 30)%nat
            then Some (mkButton false "Load More Results")
            else None)
           false
           (negb (List.length (r_businesses r) =? 30)%nat)
           None)
  end.
Proof.
  intros H6 Hm Ho. unfold search. rewrite (search_resolved _ _ H6 Ho).
  unfold renderResults, nonEmpty. simpl. rewrite Hm.
  destruct (r_businesses r) as [|b bs]; simpl.
  - destruct (String.eqb (area s) ""); reflexivity.
  - destruct (List.length bs =? 29)%nat; reflexivity.
Qed.

Lemma view_after_answered_search_witness :
  renderResults (search (Sample.answers [] [Sample.y_y]) (Sample.typed "110001")) =
  NoBusinessesFound "110001" None.
Proof.
  apply (@view_after_answered_search (Sample.answers [] [Sample.y_y])
                                     (Sample.typed "110001")
                                     (mkResponse [] [Sample.y_y]));
    reflexivity.
Defined.

(** X15.  While the request of an accepted search is pending the page shows
    the spinner and nothing else, whatever was on screen before. *)
Theorem view_while_searching (o : Oracle) (s : State) :
  String.length (pincode s) = 6 ->
  map (fun i => renderResults (snd i)) (searchLog o s) = [SpinnerView].
Proof.
  intros H6. unfold searchLog.
  destruct (o (searchRequest s)) as [r|e] eqn:Ho;
    [rewrite (search_resolved _ _ H6 Ho) | rewrite (search_rejected _ _ H6 Ho)];
    reflexivity.
Qed.

Lemma view_while_searching_witness :
  map (fun i => renderResults (snd i))
      (searchLog (Sample.answers [Sample.C] [])
                 (Sample.loaded [Sample.A; Sample.B] [Sample.x_old] true)) =
  [SpinnerView].
Proof.
  apply (@view_while_searching (Sample.answers [Sample.C] [])
                               (Sample.loaded [Sample.A; Sample.B] [Sample.x_old] true)).
  reflexivity.
Defined.

(** X16.  While the request of a load more started from the button is
    pending, the results stay on screen as they were; the button is disabled
    and reads "Loading More...", a spinner is added, and neither the
    end-of-results note nor an error is shown. *)
Theorem view_while_loading_more (o : Oracle) (s : State) :
  loadMoreClickable s = true ->
  map (fun i => renderResults (snd i)) (loadMoreLog o s) =
  [ResultsPage
     (mkResultsView (businesses s) (sources s)
                    (Some (mkButton true "Loading More..."))
                    true false None)].
Proof.
  intros Hc. apply loadMoreClickable_page in Hc as (Hl & Hs & Hh & _ & Hb).
  rewrite loadMoreLog_one. unfold renderResults, loadingMore. simpl.
  rewrite Hl, Hs, Hh. destruct (businesses s) as [|b bs]; [congruence|].
  reflexivity.
Qed.

Lemma view_while_loading_more_witness :
  map (fun i => renderResults (snd i))
      (loadMoreLog (Sample.answers [Sample.C] [])
                   (Sample.loaded [Sample.A; Sample.B] [Sample.x_old] true)) =
  [ResultsPage
     (mkResultsView [Sample.A; Sample.B] [Sample.x_old]
                    (Some (mkButton true "Loading More..."))
                    true false None)].
Proof.
  apply (@view_while_loading_more (Sample.answers [Sample.C] [])
                                  (Sample.loaded [Sample.A; Sample.B] [Sample.x_old] true)).
  reflexivity.
Defined.
